(** * Unit normalisation, precise rounding and the summary API

    A shallow embedding of [revamp/code-refactor.js] (a plain object as
    catalog, free functions) and of the TypeScript listing kept in
    [README.md] (classes [DatabaseManager], [UnitConverter] and
    [SummaryAPI]), with the properties of the specification proved of
    both.

    Numbers.  A JavaScript number is modelled by its exact value: a
    rational, or one of the three non-finite values.  Every operator
    below is the ECMAScript operator computed exactly; the rounding of
    binary64 arithmetic, its range and the sign of zero are outside the
    model.  Results are compared by value, written [≡].

    Strings.  A string is a sequence of code units below 256.

    Layout.  The definitions come first: numbers, the unit converter,
    the built-in string conversions, the two listings, then the
    vocabulary of the specification (well-formed payloads and expected
    results).  The lemmas follow in the same order, then the theorems of
    the specification, and further properties of the code (errors,
    lookups, where the two listings part ways) close the file. *)

From Stdlib Require Import QArith Qround Qpower ZArith Lia Lqa Ascii.
From Stdlib Require Import Decimal DecimalString DecimalPos DecimalN DecimalZ.
From stdpp Require Import gmap strings list.

Open Scope Q_scope.

(** ** Numbers *)

Inductive number : Type :=
  | Fin (q : Q)
  | PInf
  | NInf
  | NaN.

Declare Scope num_scope.
Delimit Scope num_scope with num.
Bind Scope num_scope with number.

Module Num.

(** Sign of an infinity scaled by a finite factor; a zero factor has no
    sign to give. *)
Definition scale_inf (pos : bool) (q : Q) : number :=
  match q ?= 0 with
  | Eq => NaN
  | Gt => if pos then PInf else NInf
  | Lt => if pos then NInf else PInf
  end.

Definition add (x y : number) : number :=
  match x, y with
  | NaN, _ | _, NaN => NaN
  | Fin a, Fin b => Fin (a + b)
  | PInf, NInf | NInf, PInf => NaN
  | PInf, _ | _, PInf => PInf
  | NInf, _ | _, NInf => NInf
  end.

Definition mul (x y : number) : number :=
  match x, y with
  | NaN, _ | _, NaN => NaN
  | Fin a, Fin b => Fin (a * b)
  | PInf, Fin q | Fin q, PInf => scale_inf true q
  | NInf, Fin q | Fin q, NInf => scale_inf false q
  | PInf, PInf | NInf, NInf => PInf
  | PInf, NInf | NInf, PInf => NInf
  end.

Definition div (x y : number) : number :=
  match x, y with
  | NaN, _ | _, NaN => NaN
  | Fin a, Fin b => if Qeq_bool b 0 then scale_inf true a else Fin (a / b)
  | Fin _, (PInf | NInf) => Fin 0
  | PInf, Fin b => if Qle_bool 0 b then PInf else NInf
  | NInf, Fin b => if Qle_bool 0 b then NInf else PInf
  | (PInf | NInf), (PInf | NInf) => NaN
  end.

(** Integer part, towards zero. *)
Definition Qtrunc (q : Q) : Z := Z.quot (Qnum q) (Zpos (Qden q)).

(** [n % d]: the result takes the sign of the dividend. *)
Definition Qrem (n d : Q) : Q := n - d * inject_Z (Qtrunc (n / d)).

Definition rem (x y : number) : number :=
  match x, y with
  | Fin a, Fin b => if Qeq_bool b 0 then NaN else Fin (Qrem a b)
  | Fin a, (PInf | NInf) => Fin a
  | _, _ => NaN
  end.

(** [x <= y]; any comparison with [NaN] is false. *)
Definition le (x y : number) : bool :=
  match x, y with
  | NaN, _ | _, NaN => false
  | Fin a, Fin b => Qle_bool a b
  | NInf, _ | _, PInf => true
  | PInf, _ | _, NInf => false
  end.

Definition ge (x y : number) : bool := le y x.

(** [Math.round]: nearest integer, ties towards +Infinity. *)
Definition round (x : number) : number :=
  match x with
  | Fin a => Fin (inject_Z (Qfloor (a + (1 # 2))))
  | _ => x
  end.

(** [Math.floor] *)
Definition floor (x : number) : number :=
  match x with
  | Fin a => Fin (inject_Z (Qfloor a))
  | _ => x
  end.

(** Two numbers denote the same value. *)
Definition eqv (x y : number) : Prop :=
  match x, y with
  | Fin a, Fin b => a == b
  | PInf, PInf | NInf, NInf | NaN, NaN => True
  | _, _ => False
  end.

End Num.

Coercion Fin : Q >-> number.

Infix "+" := Num.add : num_scope.
Infix "*" := Num.mul : num_scope.
Infix "/" := Num.div : num_scope.
Infix "%%" := Num.rem (at level 40, left associativity) : num_scope.
Infix "<=?" := Num.le : num_scope.
Infix ">=?" := Num.ge (at level 70) : num_scope.

#[global] Instance number_equiv : Equiv number := Num.eqv.

(** ** The unit converter *)

(** [unit === "g"] on a value that is a string or [undefined]. *)
Definition is_g (unit : option string) : bool :=
  bool_decide (unit = Some "g"%string).

Definition normalizeWeight (value : number) (unit : option string) : number :=
  if is_g unit then (value / Fin 1000)%num else value.

Definition normalizePrice (price : number) (unit : option string) : number :=
  if is_g unit then (price * Fin 1000)%num else price.

Definition preciseRound (value : number) : number :=
  let cents := Num.round (value * Fin 100)%num in
  let lastDigit := (cents %% Fin 10)%num in
  (* rounding logic for last digit *)
  if (lastDigit >=? Fin 1)%num && (lastDigit <=? Fin 2)%num then
    (Num.floor (cents / Fin 10) / Fin 10)%num
  else if (lastDigit >=? Fin 3)%num && (lastDigit <=? Fin 4)%num then
    ((Num.floor (cents / Fin 10) + Fin 0.5) / Fin 10)%num
  else if (lastDigit >=? Fin 6)%num && (lastDigit <=? Fin 7)%num then
    ((Num.floor (cents / Fin 10) + Fin 0.5) / Fin 10)%num
  else if (lastDigit >=? Fin 8)%num && (lastDigit <=? Fin 9)%num then
    ((Num.floor (cents / Fin 10) + Fin 1) / Fin 10)%num
  else
    (cents / Fin 100)%num.

(** ** Integer view of the rounding *)

(** The integer number of cents [Math.round(value * 100)]. *)
Definition round_cents (v : Q) : Z := Qfloor (v * 100 + (1 # 2)).

(** The rounding table of [preciseRound], on an integer number of cents. *)
Definition snap_cents (c : Z) : Z :=
  let r := Z.rem c 10 in
  if (1 <=? r)%Z && (r <=? 2)%Z then (10 * (c / 10))%Z
  else if (3 <=? r)%Z && (r <=? 4)%Z then (10 * (c / 10) + 5)%Z
  else if (6 <=? r)%Z && (r <=? 7)%Z then (10 * (c / 10) + 5)%Z
  else if (8 <=? r)%Z && (r <=? 9)%Z then (10 * (c / 10 + 1))%Z
  else c.

(** A number that is a whole multiple of five cents. *)
Definition multiple_of_5_cents (n : number) : Prop :=
  exists k : Z, n ≡ Fin (inject_Z k * 0.05).

(** ** Strings and the built-in conversions *)

Open Scope string_scope.

(** [s.split(sep)] for a separator of one character: every occurrence
    cuts, and the empty string gives one empty piece. *)
Fixpoint split (sep : ascii) (s : string) : list string :=
  match s with
  | EmptyString => [EmptyString]
  | String c s' =>
      if Ascii.eqb c sep then EmptyString :: split sep s'
      else match split sep s' with
           | piece :: pieces => String c piece :: pieces
           | [] => [String c EmptyString]
           end
  end.

(** White space and line terminators among the code units below 256:
    TAB, LF, VT, FF, CR, SP and NBSP. *)
Definition is_white_space (c : ascii) : bool :=
  let n := N_of_ascii c in
  ((9 <=? n) && (n <=? 13) || (n =? 32) || (n =? 160))%N.

Fixpoint trim_start (s : string) : string :=
  match s with
  | EmptyString => EmptyString
  | String c s' => if is_white_space c then trim_start s' else s
  end.

Fixpoint trim_end (s : string) : string :=
  match s with
  | EmptyString => EmptyString
  | String c s' =>
      match trim_end s' with
      | EmptyString => if is_white_space c then EmptyString else String c EmptyString
      | t => String c t
      end
  end.

Definition trim (s : string) : string := trim_start (trim_end s).

(** Value of a digit in the given radix: [0-9], then letters of either
    case for 10 and above. *)
Definition digit_value (radix : N) (c : ascii) : option N :=
  let n := N_of_ascii c in
  let d :=
    (if (48 <=? n) && (n <=? 57) then Some (n - 48)
     else if (97 <=? n) && (n <=? 122) then Some (n - 87)
     else if (65 <=? n) && (n <=? 90) then Some (n - 55)
     else None)%N in
  match d with
  | Some v => if (v <? radix)%N then Some v else None
  | None => None
  end.

(** The longest prefix of digits, as their values, and what follows it. *)
Fixpoint span_digits (radix : N) (s : string) : list N * string :=
  match s with
  | EmptyString => ([], EmptyString)
  | String c s' =>
      match digit_value radix c with
      | Some d => let '(ds, rest) := span_digits radix s' in (d :: ds, rest)
      | None => ([], s)
      end
  end.

Definition digits_value (radix : N) (ds : list N) : N :=
  fold_left (fun acc d => (radix * acc + d)%N) ds 0%N.

(** [ToString] of a value that is a string or [undefined]. *)
Definition ToString_opt (v : option string) : string :=
  match v with
  | Some s => s
  | None => "undefined"
  end.

(** [ToString] of an integer-valued number: its decimal digits, as
    ECMAScript prints every integer below 10^21. *)
Definition ToString (n : Z) : string :=
  DecimalString.NilZero.string_of_int (Z.to_int n).

(** An optional sign in front: whether it is a minus, and the rest. *)
Definition strip_sign (text : string) : bool * string :=
  match text with
  | String "-" rest => (true, rest)
  | String "+" rest => (false, rest)
  | _ => (false, text)
  end.

Definition apply_sign (negative : bool) (n : Z) : Z :=
  if negative then (- n)%Z else n.

(** The radix [parseInt] settles on, after skipping a [0x] or [0X]. *)
Definition strip_hex_prefix (text : string) : N * string :=
  match text with
  | String "0" (String "x" rest) | String "0" (String "X" rest) => (16%N, rest)
  | _ => (10%N, text)
  end.

(** [parseInt(string)], no radix given. *)
Definition parseInt (string : option string) : number :=
  let inputString := ToString_opt string in
  let '(negative, text) := strip_sign (trim_start inputString) in
  let '(radix, text) := strip_hex_prefix text in
  match span_digits radix text with
  | ([], _) => NaN
  | (digits, _) =>
      Fin (inject_Z (apply_sign negative (Z.of_N (digits_value radix digits))))
  end.

(** [0b], [0o] and [0x] literals of [StringToNumber]: a prefix, then
    digits of that radix up to the end. *)
Definition NonDecimalIntegerLiteral (text : string) : option N :=
  match text with
  | String "0" (String p rest) =>
      let radix :=
        match p with
        | "b" | "B" => Some 2%N
        | "o" | "O" => Some 8%N
        | "x" | "X" => Some 16%N
        | _ => None
        end%char in
      match radix with
      | Some R =>
          match span_digits R rest with
          | (d :: ds, EmptyString) => Some (digits_value R (d :: ds))
          | _ => None
          end
      | None => None
      end
  | _ => None
  end.

(** [ExponentPart], optional: [e] or [E], an optional sign, digits. *)
Definition ExponentPart (text : string) : option Z :=
  match text with
  | EmptyString => Some 0%Z
  | String c rest =>
      if Ascii.eqb c "e" || Ascii.eqb c "E" then
        let '(negative, rest) := strip_sign rest in
        match span_digits 10 rest with
        | (d :: ds, EmptyString) =>
            Some (apply_sign negative (Z.of_N (digits_value 10 (d :: ds))))
        | _ => None
        end
      else None
  end.

(** The fraction after a point, if there is one. *)
Definition FractionPart (text : string) : list N * string :=
  match text with
  | String "." rest => span_digits 10 rest
  | _ => ([], text)
  end.

(** [StrUnsignedDecimalLiteral] other than [Infinity]: digits with an
    optional fraction, or a fraction alone, then the exponent. *)
Definition StrUnsignedDecimalLiteral (text : string) : option Q :=
  let '(int_digits, rest) := span_digits 10 text in
  let '(frac_digits, rest) := FractionPart rest in
  match (int_digits ++ frac_digits)%list with
  | [] => None
  | digits =>
      match ExponentPart rest with
      | Some e =>
          Some (inject_Z (Z.of_N (digits_value 10 digits))
                * Qpower 10 (e - Z.of_nat (length frac_digits)))%Q
      | None => None
      end
  end.

Definition StrDecimalLiteral (text : string) : number :=
  let '(negative, text) := strip_sign text in
  if String.eqb text "Infinity" then (if negative then NInf else PInf)
  else
    match StrUnsignedDecimalLiteral text with
    | Some q => Fin (if negative then - q else q)%Q
    | None => NaN
    end.

Definition StringToNumber (str : string) : number :=
  let text := trim str in
  match text with
  | EmptyString => Fin 0
  | _ =>
      match NonDecimalIntegerLiteral text with
      | Some n => Fin (inject_Z (Z.of_N n))
      | None => StrDecimalLiteral text
      end
  end.

(** [Number(value)] of a string or [undefined]. *)
Definition Number (value : option string) : number :=
  match value with
  | Some s => StringToNumber s
  | None => NaN
  end.

(** ** Values and completions *)

(** An expression completes normally or throws; the only exception these
    programs can raise is the [TypeError] of reading a property of
    [undefined]. *)
Inductive completion (A : Type) : Type :=
  | Normal (a : A)
  | ThrowTypeError.

Arguments Normal {A} a.
Arguments ThrowTypeError {A}.

#[global] Instance completion_bind : MBind completion :=
  fun A B (k : A -> completion B) (c : completion A) =>
    match c with
    | Normal a => k a
    | ThrowTypeError => ThrowTypeError
    end.

(** [array.reduce(callback, initial)] with a callback that may throw. *)
Fixpoint reduce {A B : Type} (callback : B -> A -> completion B)
    (array : list A) (initial : B) : completion B :=
  match array with
  | [] => Normal initial
  | x :: rest => acc ← callback initial x; reduce callback rest acc
  end.

(** [array.map(callback)] with a callback that may throw. *)
Fixpoint map_array {A B : Type} (callback : A -> completion B)
    (array : list A) : completion (list B) :=
  match array with
  | [] => Normal []
  | x :: rest =>
      y ← callback x; ys ← map_array callback rest; Normal (y :: ys)
  end.

(** The [Item] of both listings.  An id is an integer and a unit price a
    finite number; the unit is any string at run time. *)
Module Item.
Record t : Type := {
  id : Z;
  name : string;
  unitPrice : Q;
  unit : string;
}.
End Item.

Abbreviation Item := Item.t.

(** [item.field], where [item] may be [undefined]. *)
Definition member {A : Type} (item : option Item) (field : Item -> A) :
  completion A :=
  match item with
  | Some i => Normal (field i)
  | None => ThrowTypeError
  end.

(** One element of the array [query] returns. *)
Record PriceInfo : Type := {
  itemId : number;
  kgPrice : number;
}.

(** What [summaryApi] and [process] return. *)
Inductive value : Type :=
  | VNumber (n : number)
  | VArray (entries : list PriceInfo)
  | VUndefined.

Record LargeData : Type := {
  action : string;
  datas : string;
}.

(** The items both listings seed their catalog with. *)
Definition sample_items : list Item := [
  {| Item.id := 1; Item.name := "item1"; Item.unitPrice := 1.45; Item.unit := "kg" |};
  {| Item.id := 2; Item.name := "item2"; Item.unitPrice := 1.23; Item.unit := "kg" |};
  {| Item.id := 3; Item.name := "item3"; Item.unitPrice := 2.35; Item.unit := "g" |};
  {| Item.id := 4; Item.name := "item4"; Item.unitPrice := 4.56; Item.unit := "kg" |};
  {| Item.id := 5; Item.name := "item5"; Item.unitPrice := 1.34; Item.unit := "kg" |};
  {| Item.id := 6; Item.name := "item6"; Item.unitPrice := 5.67; Item.unit := "kg" |};
  {| Item.id := 7; Item.name := "item7"; Item.unitPrice := 2.34; Item.unit := "g" |};
  {| Item.id := 8; Item.name := "item8"; Item.unitPrice := 3.45; Item.unit := "kg" |};
  {| Item.id := 9; Item.name := "item9"; Item.unitPrice := 9.1; Item.unit := "kg" |};
  {| Item.id := 10; Item.name := "item10"; Item.unitPrice := 1; Item.unit := "g" |};
  {| Item.id := 11; Item.name := "item11"; Item.unitPrice := 2.13; Item.unit := "g" |};
  {| Item.id := 12; Item.name := "item12"; Item.unitPrice := 2.64; Item.unit := "kg" |};
  {| Item.id := 13; Item.name := "item13"; Item.unitPrice := 2.85; Item.unit := "kg" |};
  {| Item.id := 14; Item.name := "item14"; Item.unitPrice := 2.71; Item.unit := "kg" |};
  {| Item.id := 15; Item.name := "item15"; Item.unitPrice := 1.49; Item.unit := "kg" |};
  {| Item.id := 16; Item.name := "item16"; Item.unitPrice := 1.78; Item.unit := "g" |};
  {| Item.id := 17; Item.name := "item17"; Item.unitPrice := 1.59; Item.unit := "kg" |};
  {| Item.id := 18; Item.name := "item18"; Item.unitPrice := 3.55; Item.unit := "g" |};
  {| Item.id := 19; Item.name := "item19"; Item.unitPrice := 4.05; Item.unit := "kg" |}
].

(** ** revamp/code-refactor.js *)

(** [Object.fromEntries(entries)]: a later entry replaces an earlier one
    under the same key. *)
Definition Object_fromEntries (entries : list (string * Item)) :
  gmap string Item :=
  fold_left (fun object entry => <[entry.1 := entry.2]> object) entries ∅.

Module Database.
Record t : Type := {
  items : gmap string Item;
}.
End Database.

Abbreviation Database := Database.t.

(** [createDatabase] on a given list of items; the property key of an
    item is its id converted to a string. *)
Definition createDatabaseOf (items : list Item) : Database :=
  {| Database.items :=
       Object_fromEntries
         (map (fun item => (ToString (Item.id item), item)) items) |}.

Definition createDatabase : Database := createDatabaseOf sample_items.

Definition database : Database := createDatabase.

(** [object[key]] on own properties; the members a plain object inherits
    from [Object.prototype] are outside the model. *)
Definition property (object : gmap string Item) (key : option string) :
  option Item :=
  object !! ToString_opt key.

Section code_refactor.

Variable database : Database.

Definition handleCalculate (datasString : string) : completion number :=
  let items := map (split ",") (split ";" datasString) in
  totalPrice ←
    reduce (fun sum (fields : list string) =>
      let id := fields !! 0%nat in
      let quantity := fields !! 1%nat in
      let unit := fields !! 2%nat in
      let item := property (Database.items database) id in
      let normalizedQuantity := normalizeWeight (Number quantity) unit in
      item_unitPrice ← member item Item.unitPrice;
      item_unit ← member item Item.unit;
      let normalizedPrice :=
        normalizePrice (Fin item_unitPrice) (Some item_unit) in
      Normal (sum + normalizedPrice * normalizedQuantity)%num)
      items (Fin 0);
  Normal (preciseRound totalPrice).

Definition handleQuery (datasString : string) :
  completion (list PriceInfo) :=
  let ids := split "," datasString in
  map_array (fun id =>
    let item := property (Database.items database) (Some id) in
    item_unitPrice ← member item Item.unitPrice;
    item_unit ← member item Item.unit;
    Normal {|
      itemId := Number (Some id);
      kgPrice := normalizePrice (Fin item_unitPrice) (Some item_unit);
    |}) ids.

Definition summaryApi (largeData : LargeData) : completion value :=
  if String.eqb (action largeData) "calculate" then
    n ← handleCalculate (datas largeData); Normal (VNumber n)
  else if String.eqb (action largeData) "query" then
    entries ← handleQuery (datas largeData); Normal (VArray entries)
  else
    Normal VUndefined.

End code_refactor.

(** ** The TypeScript listing: DatabaseManager, UnitConverter, SummaryAPI *)

Module DatabaseManager.

(** [private items: Map<number, Item>], keyed by the integer ids. *)
Record t : Type := {
  items : gmap Z Item;
}.

Definition new : t := {| items := ∅ |}.

Definition addItem (this : t) (item : Item) : t :=
  {| items := <[Item.id item := item]> (items this) |}.

(** [Map.get] compares keys as numbers: only an integer-valued number can
    meet a key. *)
Definition getItem (this : t) (id : number) : option Item :=
  match id with
  | Fin q =>
      let r := Qred q in
      if (Zpos (Qden r) =? 1)%Z then items this !! Qnum r else None
  | _ => None
  end.

Definition bulkAdd (this : t) (items : list Item) : t :=
  fold_left addItem items this.

End DatabaseManager.

Module UnitConverter.

Definition normalizeWeight (value : number) (unit : option string) : number :=
  if is_g unit then (value / Fin 1000)%num else value.

Definition normalizePrice (price : number) (unit : option string) : number :=
  if is_g unit then (price * Fin 1000)%num else price.

Definition preciseRound (value : number) : number :=
  let cents := Num.round (value * Fin 100)%num in
  let lastDigit := (cents %% Fin 10)%num in
  (* rounding logic for last digit *)
  if (lastDigit >=? Fin 1)%num && (lastDigit <=? Fin 2)%num then
    (Num.floor (cents / Fin 10) / Fin 10)%num
  else if (lastDigit >=? Fin 3)%num && (lastDigit <=? Fin 4)%num then
    ((Num.floor (cents / Fin 10) + Fin 0.5) / Fin 10)%num
  else if (lastDigit >=? Fin 6)%num && (lastDigit <=? Fin 7)%num then
    ((Num.floor (cents / Fin 10) + Fin 0.5) / Fin 10)%num
  else if (lastDigit >=? Fin 8)%num && (lastDigit <=? Fin 9)%num then
    ((Num.floor (cents / Fin 10) + Fin 1) / Fin 10)%num
  else
    (cents / Fin 100)%num.

End UnitConverter.

Module SummaryAPI.

Section methods.

(** [this.database] *)
Variable database : DatabaseManager.t.

Definition calculate (datasString : string) : completion number :=
  let items := map (split ",") (split ";" datasString) in
  totalPrice ←
    reduce (fun sum (fields : list string) =>
      let id := fields !! 0%nat in
      let quantity := fields !! 1%nat in
      let unit := fields !! 2%nat in
      let item := DatabaseManager.getItem database (parseInt id) in
      let normalizedQuantity :=
        UnitConverter.normalizeWeight (Number quantity) unit in
      item_unitPrice ← member item Item.unitPrice;
      item_unit ← member item Item.unit;
      let normalizedPrice :=
        UnitConverter.normalizePrice (Fin item_unitPrice) (Some item_unit) in
      Normal (sum + normalizedPrice * normalizedQuantity)%num)
      items (Fin 0);
  Normal (UnitConverter.preciseRound totalPrice).

Definition query (datasString : string) : completion (list PriceInfo) :=
  let ids := map (fun id => parseInt (Some id)) (split "," datasString) in
  let items := map (DatabaseManager.getItem database) ids in
  map_array (fun item =>
    item_id ← member item Item.id;
    item_unitPrice ← member item Item.unitPrice;
    item_unit ← member item Item.unit;
    Normal {|
      itemId := Fin (inject_Z item_id);
      kgPrice :=
        UnitConverter.normalizePrice (Fin item_unitPrice) (Some item_unit);
    |}) items.

Definition process (largeData : LargeData) : completion value :=
  if String.eqb (action largeData) "calculate" then
    n ← calculate (datas largeData); Normal (VNumber n)
  else if String.eqb (action largeData) "query" then
    entries ← query (datas largeData); Normal (VArray entries)
  else
    Normal VUndefined.

End methods.

End SummaryAPI.

(** The database [testFunction] of the listing builds. *)
Definition sample_database : DatabaseManager.t :=
  DatabaseManager.bulkAdd DatabaseManager.new sample_items.

(** ** Well-formed payloads and expected results *)

(** Same outcome, with numbers compared by value. *)
#[global] Instance PriceInfo_equiv : Equiv PriceInfo :=
  fun p q => itemId p ≡ itemId q /\ kgPrice p ≡ kgPrice q.

#[global] Instance value_equiv : Equiv value :=
  fun v w =>
    match v, w with
    | VNumber m, VNumber n => m ≡ n
    | VArray k, VArray l => k ≡ l
    | VUndefined, VUndefined => True
    | _, _ => False
    end.

#[global] Instance completion_equiv {A : Type} `{Equiv A} :
  Equiv (completion A) :=
  fun c d =>
    match c, d with
    | Normal a, Normal b => a ≡ b
    | ThrowTypeError, ThrowTypeError => True
    | _, _ => False
    end.

(** [pieces.join(sep)] *)
Fixpoint join (sep : ascii) (pieces : list string) : string :=
  match pieces with
  | [] => ""
  | [piece] => piece
  | piece :: rest => piece ++ String sep (join sep rest)
  end.



(** A decimal literal: an optional minus sign, digits, and an optional
    fraction ([Nil] when there is none) after a point. *)
Record DecimalLiteral : Type := {
  negative : bool;
  integer_part : Decimal.uint;
  fraction_part : Decimal.uint;
}.

Definition well_formed_literal (l : DecimalLiteral) : Prop :=
  integer_part l <> Nil.

Definition digits_text (d : Decimal.uint) : string :=
  DecimalString.NilEmpty.string_of_uint d.

Definition fraction_text (f : Decimal.uint) : string :=
  match f with
  | Nil => ""
  | _ => String "." (digits_text f)
  end.

Definition literal_text (l : DecimalLiteral) : string :=
  (if negative l then "-" else "")
  ++ digits_text (integer_part l) ++ fraction_text (fraction_part l).

(** The number a literal denotes: its integer part plus its fraction
    over the matching power of ten. *)
Definition literal_value (l : DecimalLiteral) : Q :=
  let magnitude :=
    (inject_Z (Z.of_N (N.of_uint (integer_part l)))
     + inject_Z (Z.of_N (N.of_uint (fraction_part l)))
       / inject_Z (10 ^ Z.of_nat (Decimal.nb_digits (fraction_part l))))%Q in
  if negative l then (- magnitude)%Q else magnitude.




(** Payload of a query request: [id ("," id)*]. *)
Definition query_payload (ids : list Z) : string :=
  join "," (map ToString ids).



(** The answer to a query for one item. *)
Definition price_info (item : Item) : PriceInfo :=
  {| itemId := Fin (inject_Z (Item.id item));
     kgPrice := normalizePrice (Fin (Item.unitPrice item))
                  (Some (Item.unit item)) |}.

(** Every property key of the object is the id of the item stored
    under it, as [createDatabase] arranges. *)
Definition keyed_by_id (database : Database) : Prop :=
  forall key item,
    Database.items database !! key = Some item ->
    key = ToString (Item.id item).


(** ** Auxiliary definitions *)

(** Every character of the string passes the test. *)
Fixpoint all_chars (test : ascii -> bool) (s : string) : bool :=
  match s with
  | EmptyString => true
  | String c s' => test c && all_chars test s'
  end.

Definition is_digit (c : ascii) : bool :=
  let n := N_of_ascii c in ((48 <=? n) && (n <=? 57))%N.

(** The characters of the text of a field: digits, sign, point and the
    letters of the unit tokens. *)
Definition field_char (c : ascii) : bool :=
  is_digit c || Ascii.eqb c "-" || Ascii.eqb c "." || Ascii.eqb c "k"
  || Ascii.eqb c "g".

Definition differs (sep c : ascii) : bool := negb (Ascii.eqb c sep).

(** The text is empty or starts with something that is not a decimal
    digit. *)
Definition starts_nondigit (s : string) : Prop :=
  match s with
  | EmptyString => True
  | String c _ => is_digit c = false
  end.

(** The digits of a decimal numeral, most significant first. *)
Fixpoint uint_digits (d : Decimal.uint) : list N :=
  match d with
  | Nil => []
  | D0 d => 0%N :: uint_digits d
  | D1 d => 1%N :: uint_digits d
  | D2 d => 2%N :: uint_digits d
  | D3 d => 3%N :: uint_digits d
  | D4 d => 4%N :: uint_digits d
  | D5 d => 5%N :: uint_digits d
  | D6 d => 6%N :: uint_digits d
  | D7 d => 7%N :: uint_digits d
  | D8 d => 8%N :: uint_digits d
  | D9 d => 9%N :: uint_digits d
  end.

(** The literal that [ToString] prints for an integer. *)
Definition integer_literal (n : Z) : DecimalLiteral :=
  {| negative := (n <? 0)%Z;
     integer_part := N.to_uint (Z.abs_N n);
     fraction_part := Nil |}.

(** ** Vocabulary of the further properties *)

(** The last item of the list that carries the id, if any. *)
Definition last_with_id (i : Z) (items : list Item) : option Item :=
  last (filter (fun item => Item.id item = i) items).

(** What one entry adds to the total, given how the listing looks its id
    up: nothing when the lookup fails. *)
Definition entry_price (lookup : option string -> option Item)
    (fields : list string) : option number :=
  item ← lookup (fields !! 0%nat);
  Some (normalizePrice (Fin (Item.unitPrice item)) (Some (Item.unit item))
        * normalizeWeight (Number (fields !! 1%nat)) (fields !! 2%nat))%num.

(** The lookups of the two listings. *)
Definition lookup_js (database : Database) (id : option string) :
  option Item :=
  property (Database.items database) id.

Definition lookup_ts (database : DatabaseManager.t) (id : option string) :
  option Item :=
  DatabaseManager.getItem database (parseInt id).

(** The names a plain object inherits from [Object.prototype]: under
    these, [object[key]] is not [undefined] although the object has no
    such property of its own. *)
Definition Object_prototype_names : list string :=
  ["constructor"; "hasOwnProperty"; "isPrototypeOf"; "propertyIsEnumerable";
   "toLocaleString"; "toString"; "valueOf"; "__proto__";
   "__defineGetter__"; "__defineSetter__"; "__lookupGetter__";
   "__lookupSetter__"].

Definition inherited (key : option string) : bool :=
  existsb (String.eqb (ToString_opt key)) Object_prototype_names.

(** The text is the canonical decimal form of an integer. *)
Definition canonical_id (token : string) : Prop :=
  exists i : Z, token = ToString i.

(** A request whose id tokens are all in canonical form. *)
Definition canonical_request (largeData : LargeData) : Prop :=
  (action largeData = "calculate" ->
   Forall (fun entry =>
             exists i : Z, split "," entry !! 0%nat = Some (ToString i))
     (split ";" (datas largeData))) /\
  (action largeData = "query" ->
   Forall canonical_id (split "," (datas largeData))).

(** The answer of each listing to one id token of a query: nothing when
    the lookup fails. *)
Definition query_answer_js (database : Database) (token : string) :
  option PriceInfo :=
  item ← lookup_js database (Some token);
  Some {| itemId := Number (Some token);
          kgPrice := normalizePrice (Fin (Item.unitPrice item))
                       (Some (Item.unit item)) |}.

Definition query_answer_ts (database : DatabaseManager.t) (token : string) :
  option PriceInfo :=
  item ← lookup_ts database (Some token);
  Some (price_info item).

Ltac euclid := Z.quot_rem_to_equations; Z.div_mod_to_equations; lia.

(** ** Facts about the number operations *)

#[global] Instance number_equivalence : Equivalence (≡@{number}).
Proof.
  split.
  - intros []; simpl; done.
  - intros [] []; simpl; done.
  - intros [] [] []; simpl; try done. apply Qeq_trans.
Qed.

Lemma Fin_equiv (a b : Q) : Fin a ≡ Fin b <-> a == b.
Proof. done. Qed.

Ltac unfin :=
  repeat match goal with
         | H : Fin ?a ≡ Fin ?b |- _ => change (a == b)%Q in H
         end.

Lemma Qrem_inject_Z (c : Z) (d : positive) :
  Num.Qrem (inject_Z c) (inject_Z (Zpos d)) == inject_Z (Z.rem c (Zpos d)).
Proof.
  unfold Num.Qrem, Num.Qtrunc. simpl.
  rewrite Z.mul_1_r.
  pose proof (Z.quot_rem' c (Zpos d)) as E.
  unfold Qeq. simpl. rewrite !Pos.mul_1_l. lia.
Qed.

Lemma div_Fin (a b : Q) : ~ b == 0 -> (Fin a / Fin b)%num = Fin (a / b).
Proof.
  intros Hb. unfold Num.div.
  destruct (Qeq_bool b 0) eqn:E; [|done].
  by apply Qeq_bool_eq in E.
Qed.

Lemma rem_Fin (a b : Q) : ~ b == 0 -> (Fin a %% Fin b)%num = Fin (Num.Qrem a b).
Proof.
  intros Hb. unfold Num.rem.
  destruct (Qeq_bool b 0) eqn:E; [|done].
  by apply Qeq_bool_eq in E.
Qed.

Lemma ge_Zrem (c k : Z) :
  (Fin (Num.Qrem (inject_Z c) 10) >=? Fin (k # 1))%num = (k <=? Z.rem c 10)%Z.
Proof.
  unfold Num.ge, Num.le. apply Bool.eq_iff_eq_true.
  rewrite Qle_bool_iff, Z.leb_le, (Qrem_inject_Z c 10). by rewrite Zle_Qle.
Qed.

Lemma le_Zrem (c k : Z) :
  (Fin (Num.Qrem (inject_Z c) 10) <=? Fin (k # 1))%num = (Z.rem c 10 <=? k)%Z.
Proof.
  unfold Num.le. apply Bool.eq_iff_eq_true.
  rewrite Qle_bool_iff, Z.leb_le, (Qrem_inject_Z c 10). by rewrite Zle_Qle.
Qed.

Lemma floor_div10 (c : Z) :
  Num.floor (Fin (inject_Z c) / Fin 10) = Fin (inject_Z (c / 10)).
Proof. rewrite div_Fin by done. simpl. by rewrite (Zdiv_Qdiv c 10). Qed.

(** [preciseRound] is the table [snap_cents] applied to the rounded cents. *)
Lemma preciseRound_cents (x : number) (c : Z) :
  Num.round (x * Fin 100) = Fin (inject_Z c) ->
  preciseRound x ≡ Fin (inject_Z (snap_cents c) / 100).
Proof.
  intros Hc. unfold preciseRound, snap_cents. rewrite Hc.
  rewrite (rem_Fin _ 10) by done.
  rewrite !ge_Zrem, !le_Zrem, floor_div10.
  repeat case_match;
    rewrite ?(div_Fin _ 10), ?(div_Fin _ 100) by done; apply Fin_equiv;
    unfold Qeq; simpl; lia.
Qed.

Lemma preciseRound_Fin (v : Q) :
  preciseRound (Fin v) ≡ Fin (inject_Z (snap_cents (round_cents v)) / 100).
Proof. by apply preciseRound_cents. Qed.

#[global] Instance preciseRound_proper : Proper ((≡) ==> (≡)) preciseRound.
Proof.
  intros [a| | |] [b| | |] H; try done.
  change (a == b) in H.
  rewrite !preciseRound_Fin. apply Fin_equiv.
  unfold round_cents. by rewrite H.
Qed.



Lemma snap_cents_nonpos (c : Z) : (c <= 0)%Z -> snap_cents c = c.
Proof. intros Hc. unfold snap_cents. repeat case_match; try done; euclid. Qed.


(** ** Facts about strings *)

Lemma append_empty_r (s : string) : s ++ "" = s.
Proof.
  induction s as [|c s IH]; [done|].
  change (String c (s ++ "") = String c s). by rewrite IH.
Qed.

Lemma all_chars_app (test : ascii -> bool) (s t : string) :
  all_chars test (s ++ t) = all_chars test s && all_chars test t.
Proof. induction s as [|c s IH]; simpl; [done|]. by rewrite IH, andb_assoc. Qed.

Lemma all_chars_impl (test test' : ascii -> bool) (s : string) :
  (forall c, test c = true -> test' c = true) ->
  all_chars test s = true -> all_chars test' s = true.
Proof.
  intros Himp. induction s as [|c s IH]; simpl; [done|].
  rewrite !andb_true_iff. intros [Hc Hs]. auto.
Qed.

Lemma split_differs (sep : ascii) (s : string) :
  all_chars (differs sep) s = true -> split sep s = [s].
Proof.
  induction s as [|c s IH]; simpl; [done|].
  unfold differs at 1. rewrite andb_true_iff, negb_true_iff.
  intros [-> Hs]. by rewrite IH.
Qed.

Lemma split_app (sep : ascii) (s t : string) :
  all_chars (differs sep) s = true ->
  split sep (s ++ String sep t) = s :: split sep t.
Proof.
  induction s as [|c s IH]; simpl.
  - by rewrite Ascii.eqb_refl.
  - unfold differs at 1. rewrite andb_true_iff, negb_true_iff.
    intros [-> Hs]. by rewrite IH.
Qed.

Lemma split_join (sep : ascii) (pieces : list string) :
  pieces <> [] ->
  Forall (fun s => all_chars (differs sep) s = true) pieces ->
  split sep (join sep pieces) = pieces.
Proof.
  intros Hne Hall. induction Hall as [|s rest Hs Hrest IH]; [done|].
  destruct rest as [|s' rest']; simpl.
  - by apply split_differs.
  - rewrite split_app by done. f_equal. by apply IH.
Qed.

Lemma trim_start_id (s : string) :
  all_chars (fun c => negb (is_white_space c)) s = true -> trim_start s = s.
Proof.
  destruct s as [|c s]; simpl; [done|].
  rewrite andb_true_iff, negb_true_iff. by intros [-> _].
Qed.

Lemma trim_end_id (s : string) :
  all_chars (fun c => negb (is_white_space c)) s = true -> trim_end s = s.
Proof.
  induction s as [|c s IH]; simpl; [done|].
  rewrite andb_true_iff, negb_true_iff. intros [Hc Hs].
  rewrite IH, Hc by done. by destruct s.
Qed.

Lemma trim_id (s : string) :
  all_chars (fun c => negb (is_white_space c)) s = true -> trim s = s.
Proof. intros Hs. unfold trim. by rewrite trim_end_id, trim_start_id. Qed.

(** *** Characters *)

Ltac by_cases_on_char c :=
  destruct c as [[] [] [] [] [] [] [] []]; vm_compute; try done.

Lemma field_char_not_space (c : ascii) :
  field_char c = true -> negb (is_white_space c) = true.
Proof. by_cases_on_char c. Qed.

Lemma field_char_not_comma (c : ascii) :
  field_char c = true -> differs "," c = true.
Proof. by_cases_on_char c. Qed.


Lemma is_digit_field_char (c : ascii) :
  is_digit c = true -> field_char c = true.
Proof. by_cases_on_char c. Qed.

Lemma digit_value_is_digit (c : ascii) :
  is_digit c = false -> digit_value 10 c = None.
Proof. by_cases_on_char c. Qed.

Lemma strip_sign_digit (c : ascii) (s : string) :
  is_digit c = true -> strip_sign (String c s) = (false, String c s).
Proof. by_cases_on_char c. Qed.

(** *** Decimal numerals *)

Lemma digits_text_digits (d : Decimal.uint) :
  all_chars is_digit (digits_text d) = true.
Proof. induction d; simpl; done. Qed.

Lemma length_uint_digits (d : Decimal.uint) :
  length (uint_digits d) = Decimal.nb_digits d.
Proof. induction d; simpl; congruence. Qed.

Lemma uint_digits_nil (d : Decimal.uint) : uint_digits d = [] -> d = Nil.
Proof. by destruct d. Qed.

Lemma span_digits_text (d : Decimal.uint) (rest : string) :
  starts_nondigit rest ->
  span_digits 10 (digits_text d ++ rest) = (uint_digits d, rest).
Proof.
  intros Hrest.
  induction d; simpl; rewrite ?IHd; try done.
  destruct rest as [|c rest]; simpl; [done|].
  by rewrite digit_value_is_digit.
Qed.

Lemma span_digits_text_end (d : Decimal.uint) :
  span_digits 10 (digits_text d) = (uint_digits d, "").
Proof.
  rewrite <- (span_digits_text d "") by done.
  by rewrite append_empty_r.
Qed.

Lemma digits_value_acc (radix : N) (ds : list N) (acc : N) :
  fold_left (fun acc d => (radix * acc + d)%N) ds acc
  = (acc * radix ^ N.of_nat (length ds) + digits_value radix ds)%N.
Proof.
  unfold digits_value. revert acc.
  induction ds as [|d ds IH]; intros acc.
  - simpl. lia.
  - cbn [fold_left length]. rewrite IH, (IH (radix * 0 + d)%N).
    rewrite Nat2N.inj_succ, N.pow_succ_r'. lia.
Qed.

Lemma digits_value_app (radix : N) (ds ds' : list N) :
  digits_value radix (ds ++ ds')
  = (digits_value radix ds * radix ^ N.of_nat (length ds')
     + digits_value radix ds')%N.
Proof.
  unfold digits_value at 1. rewrite fold_left_app.
  by rewrite digits_value_acc.
Qed.

Lemma of_uint_acc_digits (d : Decimal.uint) (acc : positive) :
  fold_left (fun acc d => (10 * acc + d)%N) (uint_digits d) (Npos acc)
  = Npos (Pos.of_uint_acc d acc).
Proof.
  revert acc. induction d; intros acc; simpl; [done|..];
    rewrite <- IHd; f_equal; lia.
Qed.

Lemma digits_value_uint (d : Decimal.uint) :
  digits_value 10 (uint_digits d) = N.of_uint d.
Proof.
  unfold digits_value, N.of_uint.
  induction d; simpl; [done|done|..]; by rewrite <- of_uint_acc_digits.
Qed.

(** *** Literals *)

Lemma to_uint_nonnil (n : N) : N.to_uint n <> Nil.
Proof. destruct n; [done|]. apply DecimalPos.Unsigned.to_uint_nonnil. Qed.

Lemma integer_literal_wf (n : Z) : well_formed_literal (integer_literal n).
Proof. apply to_uint_nonnil. Qed.

Lemma ToString_literal (n : Z) : ToString n = literal_text (integer_literal n).
Proof.
  unfold ToString, literal_text, integer_literal. cbn [negative integer_part fraction_part fraction_text].
  rewrite append_empty_r.
  assert (Hd : forall d, d <> Nil -> NilZero.string_of_uint d = digits_text d)
    by (by intros []).
  destruct n as [|p|p]; simpl; [done|..];
    by rewrite Hd by apply DecimalPos.Unsigned.to_uint_nonnil.
Qed.

Lemma digits_text_cons (d : Decimal.uint) :
  d <> Nil ->
  exists c s, digits_text d = String c s /\ is_digit c = true.
Proof. destruct d; [done|..]; intros _; eexists _, _; by split. Qed.

Lemma fraction_text_starts (f : Decimal.uint) :
  starts_nondigit (fraction_text f).
Proof. by destruct f. Qed.

Lemma fraction_text_chars (f : Decimal.uint) :
  all_chars field_char (fraction_text f) = true.
Proof.
  assert (all_chars field_char (digits_text f) = true) as Hf.
  { eapply all_chars_impl; [apply is_digit_field_char|apply digits_text_digits]. }
  destruct f; simpl; done.
Qed.

Lemma literal_text_chars (l : DecimalLiteral) :
  all_chars field_char (literal_text l) = true.
Proof.
  unfold literal_text. rewrite !all_chars_app, fraction_text_chars.
  rewrite (all_chars_impl is_digit field_char (digits_text _));
    [|apply is_digit_field_char|apply digits_text_digits].
  by destruct (negative l).
Qed.

Lemma FractionPart_text (f : Decimal.uint) :
  FractionPart (fraction_text f) = (uint_digits f, "").
Proof.
  destruct f; [done|..]; unfold fraction_text, FractionPart;
    apply span_digits_text_end.
Qed.

Lemma StrUnsignedDecimalLiteral_text (i f : Decimal.uint) :
  i <> Nil ->
  StrUnsignedDecimalLiteral (digits_text i ++ fraction_text f)
  = Some (inject_Z (Z.of_N (digits_value 10 (uint_digits i ++ uint_digits f)))
          * Qpower 10 (0 - Z.of_nat (length (uint_digits f))))%Q.
Proof.
  intros Hi. unfold StrUnsignedDecimalLiteral.
  rewrite span_digits_text by apply fraction_text_starts.
  rewrite FractionPart_text.
  destruct (uint_digits i ++ uint_digits f)%list eqn:E; [|done].
  apply app_eq_nil in E as [E _]. by apply uint_digits_nil in E.
Qed.

Lemma not_Infinity (c : ascii) (s : string) :
  is_digit c = true -> String.eqb (String c s) "Infinity" = false.
Proof. by_cases_on_char c. Qed.

Lemma NonDecimalIntegerLiteral_minus (s : string) :
  NonDecimalIntegerLiteral (String "-" s) = None.
Proof. done. Qed.

Lemma NonDecimalIntegerLiteral_text (i f : Decimal.uint) :
  NonDecimalIntegerLiteral (digits_text i ++ fraction_text f) = None.
Proof.
  destruct i as [|i| | | | | | | | | ]; try done.
  - by destruct f.
  - destruct i; try done. by destruct f.
Qed.

Lemma literal_magnitude (i f : Decimal.uint) :
  (inject_Z (Z.of_N (digits_value 10 (uint_digits i ++ uint_digits f)))
   * Qpower 10 (0 - Z.of_nat (length (uint_digits f)))
   == inject_Z (Z.of_N (N.of_uint i))
      + inject_Z (Z.of_N (N.of_uint f))
        / inject_Z (10 ^ Z.of_nat (Decimal.nb_digits f)))%Q.
Proof.
  rewrite digits_value_app, !digits_value_uint, length_uint_digits.
  set (k := Decimal.nb_digits f).
  rewrite N2Z.inj_add, N2Z.inj_mul, N2Z.inj_pow, nat_N_Z.
  change (Z.of_N 10) with 10%Z.
  rewrite inject_Z_plus, inject_Z_mult.
  rewrite Zpower_Qpower by lia.
  change (inject_Z 10) with (10 : Q).
  rewrite Z.sub_0_l, Qpower_opp.
  assert (~ (10 ^ Z.of_nat k == 0)%Q) by (by apply Qpower_not_0).
  by field.
Qed.

Lemma Number_literal (l : DecimalLiteral) :
  well_formed_literal l ->
  Number (Some (literal_text l)) ≡ Fin (literal_value l).
Proof.
  intros Hwf. unfold Number, StringToNumber.
  rewrite trim_id
    by (eapply all_chars_impl;
        [apply field_char_not_space|apply literal_text_chars]).
  unfold literal_text, literal_value.
  destruct l as [neg i f]. cbn [negative integer_part fraction_part] in *.
  destruct (digits_text_cons i Hwf) as (c & s & Hi & Hc).
  assert (Hu : digits_text i ++ fraction_text f
               = String c (s ++ fraction_text f)) by (by rewrite Hi).
  set (u := digits_text i ++ fraction_text f) in *.
  destruct neg.
  - change ("-" ++ u) with (String "-" u).
    rewrite NonDecimalIntegerLiteral_minus. unfold StrDecimalLiteral.
    cbn [strip_sign]. rewrite Hu at 1. rewrite not_Infinity by done.
    subst u. rewrite StrUnsignedDecimalLiteral_text by done.
    apply Fin_equiv. by rewrite literal_magnitude.
  - change ("" ++ u) with u. rewrite Hu at 1.
    subst u. rewrite NonDecimalIntegerLiteral_text. unfold StrDecimalLiteral.
    rewrite Hu at 1. rewrite strip_sign_digit, not_Infinity by done.
    rewrite <- Hu.
    rewrite StrUnsignedDecimalLiteral_text by done.
    apply Fin_equiv. by rewrite literal_magnitude.
Qed.

Lemma integer_literal_value (n : Z) :
  (literal_value (integer_literal n) == inject_Z n)%Q.
Proof.
  unfold literal_value, integer_literal.
  cbn [negative integer_part fraction_part].
  rewrite DecimalN.Unsigned.of_to, N2Z.inj_abs_N.
  change (inject_Z (Z.of_N (N.of_uint Nil)) / _)%Q with (0 / 1)%Q.
  destruct (Z.ltb_spec n 0).
  - rewrite Z.abs_neq by lia. rewrite inject_Z_opp. field.
  - rewrite Z.abs_eq by lia. field.
Qed.

Lemma Number_ToString (n : Z) :
  Number (Some (ToString n)) ≡ Fin (inject_Z n).
Proof.
  rewrite ToString_literal, Number_literal by apply integer_literal_wf.
  apply Fin_equiv, integer_literal_value.
Qed.

Lemma strip_hex_prefix_digits (d : Decimal.uint) :
  strip_hex_prefix (digits_text d) = (10%N, digits_text d).
Proof. destruct d as [|d| | | | | | | | | ]; try done. by destruct d. Qed.

Lemma parseInt_ToString (n : Z) :
  parseInt (Some (ToString n)) = Fin (inject_Z n).
Proof.
  unfold parseInt, ToString_opt.
  rewrite trim_start_id.
  2:{ rewrite ToString_literal. eapply all_chars_impl;
        [apply field_char_not_space|apply literal_text_chars]. }
  rewrite ToString_literal. unfold literal_text, integer_literal.
  cbn [negative integer_part fraction_part fraction_text].
  rewrite append_empty_r.
  set (d := N.to_uint (Z.abs_N n)).
  assert (Hd : d <> Nil) by apply to_uint_nonnil.
  assert (Hs : strip_sign ((if (n <? 0)%Z then "-" else "") ++ digits_text d)
               = ((n <? 0)%Z, digits_text d)).
  { destruct (n <? 0)%Z; [done|].
    destruct (digits_text_cons d Hd) as (c & s & -> & Hc).
    by apply strip_sign_digit. }
  rewrite Hs, strip_hex_prefix_digits, span_digits_text_end.
  destruct (uint_digits d) eqn:E; [by apply uint_digits_nil in E|].
  rewrite <- E, digits_value_uint. subst d.
  rewrite DecimalN.Unsigned.of_to, N2Z.inj_abs_N.
  do 2 f_equal. unfold apply_sign. destruct (Z.ltb_spec n 0); lia.
Qed.

Lemma ToString_inj (m n : Z) : ToString m = ToString n -> m = n.
Proof.
  intros H. assert (E := parseInt_ToString m).
  rewrite H, parseInt_ToString in E. by injection E.
Qed.

Lemma ToString_chars (n : Z) : all_chars field_char (ToString n) = true.
Proof. rewrite ToString_literal. apply literal_text_chars. Qed.


(** ** Payloads *)




Lemma query_payload_ids (ids : list Z) :
  ids <> [] -> split "," (query_payload ids) = map ToString ids.
Proof.
  intros Hne. unfold query_payload. apply split_join.
  - by destruct ids.
  - apply Forall_map, Forall_forall. intros i _.
    eapply all_chars_impl; [apply field_char_not_comma|apply ToString_chars].
Qed.

(** ** The number operations respect equality of values *)

#[global] Instance scale_inf_proper (pos : bool) :
  Proper (Qeq ==> (≡)) (Num.scale_inf pos).
Proof. intros a b H. unfold Num.scale_inf. by rewrite H. Qed.

#[global] Instance add_proper : Proper ((≡) ==> (≡) ==> (≡)) Num.add.
Proof.
  intros [a| | |] [a'| | |] Ha [b| | |] [b'| | |] Hb; try done.
  unfin. apply Fin_equiv. by rewrite Ha, Hb.
Qed.

#[global] Instance mul_proper : Proper ((≡) ==> (≡) ==> (≡)) Num.mul.
Proof.
  intros [a| | |] [a'| | |] Ha [b| | |] [b'| | |] Hb; try done;
    unfin; cbn [Num.mul];
    try (by apply scale_inf_proper).
  apply Fin_equiv. by rewrite Ha, Hb.
Qed.

#[global] Instance div_proper : Proper ((≡) ==> (≡) ==> (≡)) Num.div.
Proof.
  intros [a| | |] [a'| | |] Ha [b| | |] [b'| | |] Hb; try done;
    unfin; cbn [Num.div];
    rewrite ?Hb; try done.
  destruct (Qeq_bool b' 0); [by apply scale_inf_proper|].
  apply Fin_equiv. by rewrite Ha, Hb.
Qed.

#[global] Instance normalizeWeight_proper :
  Proper ((≡) ==> (=) ==> (≡)) normalizeWeight.
Proof.
  intros v v' Hv u ? <-. unfold normalizeWeight.
  destruct (is_g u); [|done]. by rewrite Hv.
Qed.

#[global] Instance completion_equivalence {A : Type} `{Equiv A} :
  Equivalence (≡@{A}) -> Equivalence (≡@{completion A}).
Proof.
  intros HA. split.
  - intros [a|]; [|done]. change (a ≡ a). done.
  - intros [a|] [b|]; try done. change (a ≡ b -> b ≡ a). by symmetry.
  - intros [a|] [b|] [c|]; try done.
    change (a ≡ b -> b ≡ c -> a ≡ c). by etrans.
Qed.

(** ** The two calculations *)




Lemma getItem_integer (database : DatabaseManager.t) (i : Z) :
  DatabaseManager.getItem database (Fin (inject_Z i))
  = DatabaseManager.items database !! i.
Proof. unfold DatabaseManager.getItem. by rewrite inject_Z_Qred. Qed.

Lemma getItem_ToString (database : DatabaseManager.t) (i : Z) :
  DatabaseManager.getItem database (parseInt (Some (ToString i)))
  = DatabaseManager.items database !! i.
Proof. by rewrite parseInt_ToString, getItem_integer. Qed.


(** ** The two queries *)

Lemma map_array_map {A L : Type} (callback : A -> completion PriceInfo)
    (answer : L -> PriceInfo) (field : L -> A) (P : L -> Prop)
    (lines : list L) :
  (forall l, P l -> callback (field l) ≡ Normal (answer l)) ->
  Forall P lines ->
  map_array callback (map field lines) ≡ Normal (map answer lines).
Proof.
  intros Hstep Hall. induction Hall as [|l lines Hl _ IH];
    [by apply nil_equiv|].
  cbn [map map_array].
  specialize (Hstep l Hl).
  destruct (callback (field l)) as [y|]; [|done].
  destruct (map_array callback (map field lines)) as [ys|]; [|by destruct IH].
  change (y :: ys ≡ answer l :: map answer lines). by constructor.
Qed.

Lemma handleQuery_items (database : Database) (found : list (Z * Item)) :
  found <> [] ->
  keyed_by_id database ->
  Forall (fun f => Database.items database !! ToString f.1 = Some f.2)
    found ->
  handleQuery database (query_payload (map fst found))
  ≡ Normal (map (fun f => price_info f.2) found).
Proof.
  intros Hne Hkeyed Hall. unfold handleQuery.
  rewrite query_payload_ids by (by destruct found).
  rewrite map_map.
  eapply map_array_map; [|exact Hall].
  intros [i item] Hitem. cbn [fst snd] in *.
  unfold property, ToString_opt. rewrite Hitem.
  split; [|done]. cbn [itemId price_info mbind completion_bind member].
  apply Hkeyed, ToString_inj in Hitem as ->.
  apply Number_ToString.
Qed.

Lemma query_items (database : DatabaseManager.t) (found : list (Z * Item)) :
  found <> [] ->
  Forall (fun f => DatabaseManager.items database !! f.1 = Some f.2) found ->
  SummaryAPI.query database (query_payload (map fst found))
  ≡ Normal (map (fun f => price_info f.2) found).
Proof.
  intros Hne Hall. unfold SummaryAPI.query.
  rewrite query_payload_ids by (by destruct found).
  rewrite !map_map.
  eapply map_array_map; [|exact Hall].
  intros [i item] Hitem. cbn [fst snd] in *.
  by rewrite getItem_ToString, Hitem.
Qed.

(** ** The two catalogs *)

Lemma fromEntries_keyed (l : list Item) (object : gmap string Item) :
  (forall key item, object !! key = Some item ->
     key = ToString (Item.id item)) ->
  forall key item,
    fold_left (fun object entry => <[entry.1 := entry.2]> object)
      (map (fun item => (ToString (Item.id item), item)) l) object !! key
    = Some item ->
    key = ToString (Item.id item).
Proof.
  revert object. induction l as [|x l IH]; intros object Hobj; [done|].
  cbn [map fold_left fst snd]. apply IH.
  intros key item. rewrite lookup_insert. case_decide; [|by apply Hobj].
  by intros [= <-].
Qed.

Lemma createDatabaseOf_keyed (l : list Item) :
  keyed_by_id (createDatabaseOf l).
Proof.
  intros key item. apply fromEntries_keyed.
  clear. intros key item. by rewrite lookup_empty.
Qed.

Lemma seeded_alike (l : list Item) (object : gmap string Item)
    (manager : DatabaseManager.t) :
  (forall i, object !! ToString i = DatabaseManager.items manager !! i) ->
  forall i,
    fold_left (fun object entry => <[entry.1 := entry.2]> object)
      (map (fun item => (ToString (Item.id item), item)) l) object
      !! ToString i
    = DatabaseManager.items (DatabaseManager.bulkAdd manager l) !! i.
Proof.
  revert object manager.
  induction l as [|x l IH]; intros object manager Hsame; [done|].
  cbn [map fold_left fst snd]. apply IH.
  intros i. unfold DatabaseManager.addItem. cbn [DatabaseManager.items].
  rewrite !lookup_insert.
  destruct (decide (Item.id x = i)) as [->|Hne].
  - by rewrite !decide_True.
  - rewrite !decide_False; [done..|]. intros E. by apply ToString_inj in E.
Qed.

Lemma createDatabaseOf_lookup (l : list Item) (i : Z) :
  Database.items (createDatabaseOf l) !! ToString i
  = DatabaseManager.items (DatabaseManager.bulkAdd DatabaseManager.new l) !! i.
Proof. apply seeded_alike. intros j. by rewrite !lookup_empty. Qed.


(** ** Agreement of the two variants *)

Lemma number_result_proper (c d : completion number) :
  c ≡ d ->
  (n ← c; Normal (VNumber n)) ≡ (n ← d; Normal (VNumber n)).
Proof. by destruct c, d. Qed.

Lemma array_result_proper (c d : completion (list PriceInfo)) :
  c ≡ d ->
  (entries ← c; Normal (VArray entries))
  ≡ (entries ← d; Normal (VArray entries)).
Proof. by destruct c, d. Qed.

#[global] Instance PriceInfo_equivalence : Equivalence (≡@{PriceInfo}).
Proof.
  split.
  - by intros p.
  - by intros p q [? ?].
  - intros p q r [? ?] [? ?]. split; by etrans.
Qed.



(** * The properties of the specification *)







(** The amendment is tight: for negative cents that are not a multiple
    of 5 the result is not a multiple of 0.05. *)
Remark preciseRound_not_multiple (x : Q) :
  (round_cents x < 0)%Z -> Z.rem (round_cents x) 5 <> 0%Z ->
  ~ multiple_of_5_cents (preciseRound (Fin x)).
Proof.
  intros Hneg Hrem [k Hk].
  rewrite preciseRound_Fin, snap_cents_nonpos in Hk by lia.
  unfin. unfold Qeq in Hk. simpl in Hk. euclid.
Qed.

(** C9: when [round(x * 100)] is zero or negative, [preciseRound(x)] is
    [round(x * 100) / 100]: the remainder is not positive, so no branch
    of the table is taken. *)
Theorem preciseRound_nonpos (x : Q) :
  (round_cents x <= 0)%Z ->
  (Z.rem (round_cents x) 10 <= 0)%Z /\
  preciseRound (Fin x) ≡ Fin (inject_Z (round_cents x) / 100).
Proof.
  intros Hc. split; [euclid|].
  by rewrite preciseRound_Fin, snap_cents_nonpos.
Qed.

Lemma preciseRound_nonpos_witness :
  (round_cents (-0.17) <= 0)%Z /\
  preciseRound (Fin (-0.17)) ≡ Fin (inject_Z (round_cents (-0.17)) / 100).
Proof.
  assert (H : (round_cents (-0.17) <= 0)%Z) by (by vm_compute).
  split; [exact H|].
  exact (proj2 (preciseRound_nonpos (-0.17) H)).
Defined.

(** C10: a unit other than ["g"] leaves weight and price unchanged; both
    functions are total, so no unit can make them fail. *)
Theorem normalize_other_unit (v p : number) (u : string) :
  u <> "g"%string ->
  normalizeWeight v (Some u) = v /\ normalizePrice p (Some u) = p.
Proof.
  intros Hu. unfold normalizeWeight, normalizePrice, is_g.
  rewrite bool_decide_eq_false_2; [done|]. congruence.
Qed.

Lemma normalize_other_unit_witness :
  (normalizeWeight (Fin 2) (Some "lb"%string) = Fin 2 /\
   normalizePrice (Fin 3) (Some "lb"%string) = Fin 3) /\
  (normalizeWeight (Fin 2) (Some ""%string) = Fin 2 /\
   normalizePrice (Fin 3) (Some ""%string) = Fin 3).
Proof.
  split; apply normalize_other_unit; discriminate.
Defined.
(** ** The two variants side by side *)

(** The static methods of [UnitConverter] are the free functions of the
    refactored file. *)
Lemma UnitConverter_same :
  UnitConverter.normalizeWeight = normalizeWeight /\
  UnitConverter.normalizePrice = normalizePrice /\
  UnitConverter.preciseRound = preciseRound.
Proof. done. Qed.



(** C3: with the seeded catalog, both listings answer 374.65 to
    ["1,1,kg;2,2,kg;3,0.15,kg;4,4,kg"] and 805.65 to
    ["9,10,kg;12,1,kg;16,400,g"]. *)
Theorem calculate_test_vectors :
  handleCalculate database "1,1,kg;2,2,kg;3,0.15,kg;4,4,kg"
  ≡ Normal (Fin 374.65) /\
  handleCalculate database "9,10,kg;12,1,kg;16,400,g"
  ≡ Normal (Fin 805.65) /\
  SummaryAPI.calculate sample_database "1,1,kg;2,2,kg;3,0.15,kg;4,4,kg"
  ≡ Normal (Fin 374.65) /\
  SummaryAPI.calculate sample_database "9,10,kg;12,1,kg;16,400,g"
  ≡ Normal (Fin 805.65).
Proof. split; [|split; [|split]]; by vm_compute. Qed.

(** C6: on a list of ids that are all in the catalog, [handleQuery] and
    [query] return one answer per id, in input order and as often as the
    id occurs: the id of the item found and its price per kilogram.
    Each id is paired with the item it names in the catalog. *)
Theorem query_in_order (found : list (Z * Item)) :
  found <> [] ->
  let ids := map fst found in
  let answer := map (fun f => price_info f.2) found in
  (forall js : Database,
     keyed_by_id js ->
     Forall (fun f => Database.items js !! ToString f.1 = Some f.2) found ->
     handleQuery js (query_payload ids) ≡ Normal answer) /\
  (forall ts : DatabaseManager.t,
     Forall (fun f => DatabaseManager.items ts !! f.1 = Some f.2) found ->
     SummaryAPI.query ts (query_payload ids) ≡ Normal answer) /\
  length answer = length ids /\
  (forall k i,
     ids !! k = Some i ->
     exists item,
       found !! k = Some (i, item) /\
       answer !! k
       = Some {| itemId := Fin (inject_Z (Item.id item));
                 kgPrice := normalizePrice (Fin (Item.unitPrice item))
                              (Some (Item.unit item)) |}).
Proof.
  intros Hne ids answer. split; [|split; [|split]].
  - intros js Hkeyed Hin. by apply handleQuery_items.
  - intros ts Hin. by apply query_items.
  - unfold answer, ids. by rewrite !length_map.
  - intros k i Hk. unfold ids in Hk. rewrite list_lookup_fmap in Hk.
    destruct (found !! k) as [[i' item]|] eqn:Hf; [|done].
    injection Hk as ->. exists item. split; [done|].
    unfold answer. by rewrite list_lookup_fmap, Hf.
Qed.

Lemma query_in_order_witness :
  let item1 := {| Item.id := 1; Item.name := "item1"; Item.unitPrice := 1.45;
                  Item.unit := "kg" |} in
  let item3 := {| Item.id := 3; Item.name := "item3"; Item.unitPrice := 2.35;
                  Item.unit := "g" |} in
  let found := [(3%Z, item3); (1%Z, item1); (3%Z, item3)] in
  query_payload (map fst found) = "3,1,3" /\
  handleQuery database "3,1,3" ≡ Normal (map (fun f => price_info f.2) found) /\
  SummaryAPI.query sample_database "3,1,3"
  ≡ Normal (map (fun f => price_info f.2) found).
Proof.
  intros item1 item3 found. split; [done|].
  destruct (query_in_order found) as (Hjs & Hts & _); [done|].
  split.
  - apply (Hjs database); [apply createDatabaseOf_keyed|].
    repeat constructor; by vm_compute.
  - apply (Hts sample_database). repeat constructor; by vm_compute.
Defined.

(** C7: [process] and [summaryApi] hand a ["calculate"] request to the
    calculation and a ["query"] request to the query, and answer any other
    action with [undefined], without throwing. *)
Theorem process_dispatch (js : Database) (ts : DatabaseManager.t)
    (largeData : LargeData) :
  (action largeData = "calculate" ->
   summaryApi js largeData
   = (n ← handleCalculate js (datas largeData); Normal (VNumber n)) /\
   SummaryAPI.process ts largeData
   = (n ← SummaryAPI.calculate ts (datas largeData); Normal (VNumber n))) /\
  (action largeData = "query" ->
   summaryApi js largeData
   = (entries ← handleQuery js (datas largeData); Normal (VArray entries)) /\
   SummaryAPI.process ts largeData
   = (entries ← SummaryAPI.query ts (datas largeData);
      Normal (VArray entries))) /\
  (action largeData <> "calculate" -> action largeData <> "query" ->
   summaryApi js largeData = Normal VUndefined /\
   SummaryAPI.process ts largeData = Normal VUndefined).
Proof.
  unfold summaryApi, SummaryAPI.process. split; [|split].
  - by intros ->.
  - by intros ->.
  - intros Hc Hq. apply String.eqb_neq in Hc, Hq. by rewrite Hc, Hq.
Qed.

Lemma process_dispatch_witness :
  summaryApi database {| action := "delete"; datas := "1" |}
  = Normal VUndefined /\
  SummaryAPI.process sample_database {| action := "delete"; datas := "1" |}
  = Normal VUndefined.
Proof.
  by apply (process_dispatch database sample_database
              {| action := "delete"; datas := "1" |}).
Defined.



(** Outside the grammar the listings part ways: an id written with a
    leading zero is parsed by [parseInt] in the class-based listing,
    while the refactored file looks the text up as a property key and
    throws. *)
Remark leading_zero_diverges :
  SummaryAPI.process sample_database {| action := "query"; datas := "01" |}
  = Normal (VArray [{| itemId := Fin 1; kgPrice := Fin 1.45 |}]) /\
  summaryApi database {| action := "query"; datas := "01" |}
  = ThrowTypeError.
Proof. split; by vm_compute. Qed.
(** * Further properties of the code *)

(** ** Rounding *)







(** ** Catalogs *)

Lemma last_with_id_cons (i : Z) (x : Item) (l : list Item) :
  last_with_id i (x :: l)
  = match last_with_id i l with
    | Some item => Some item
    | None => if decide (Item.id x = i) then Some x else None
    end.
Proof.
  unfold last_with_id. rewrite filter_cons.
  destruct (decide (Item.id x = i)); [|by destruct (last _)].
  by rewrite last_cons.
Qed.

Lemma bulkAdd_lookup (l : list Item) (database : DatabaseManager.t) (i : Z) :
  DatabaseManager.items (DatabaseManager.bulkAdd database l) !! i
  = match last_with_id i l with
    | Some item => Some item
    | None => DatabaseManager.items database !! i
    end.
Proof.
  revert database. induction l as [|x l IH]; intros database; [done|].
  unfold DatabaseManager.bulkAdd in *. cbn [fold_left].
  rewrite IH, last_with_id_cons.
  destruct (last_with_id i l); [done|].
  unfold DatabaseManager.addItem. cbn [DatabaseManager.items].
  rewrite lookup_insert. by case_decide.
Qed.

Lemma last_with_id_Some (i : Z) (l : list Item) (item : Item) :
  last_with_id i l = Some item -> item ∈ l /\ Item.id item = i.
Proof.
  unfold last_with_id. intros H. apply last_Some_elem_of in H.
  by apply list_elem_of_filter in H as [? ?].
Qed.

Lemma getItem_value (database : DatabaseManager.t) (q : Q) (i : Z) :
  q == inject_Z i ->
  DatabaseManager.getItem database (Fin q)
  = DatabaseManager.items database !! i.
Proof.
  intros Hq. unfold DatabaseManager.getItem.
  by rewrite (Qred_complete _ _ Hq), inject_Z_Qred.
Qed.

Lemma getItem_Some (database : DatabaseManager.t) (n : number) (item : Item) :
  DatabaseManager.getItem database n = Some item ->
  exists i : Z, n ≡ Fin (inject_Z i) /\
                DatabaseManager.items database !! i = Some item.
Proof.
  destruct n as [q| | |]; try done. unfold DatabaseManager.getItem.
  destruct (Z.eqb_spec (Zpos (Qden (Qred q))) 1) as [Hden|]; [|done].
  intros Hitem. exists (Qnum (Qred q)). split; [|done].
  apply Fin_equiv. rewrite <- (Qred_correct q) at 1.
  destruct (Qred q) as [num den]. cbn in *. by injection Hden as ->.
Qed.

Lemma ToString_nonempty (i : Z) : ToString i <> "".
Proof.
  intros E. assert (H := parseInt_ToString i). by rewrite E in H.
Qed.

(** ** Calculations and queries on any payload *)

Lemma reduce_prices {A : Type} (callback : number -> A -> completion number)
    (price : A -> option number) (l : list A) (sum : number) :
  (forall sum x,
     callback sum x
     = match price x with
       | Some v => Normal (sum + v)%num
       | None => ThrowTypeError
       end) ->
  reduce callback l sum
  = match mapM price l with
    | Some prices => Normal (fold_left Num.add prices sum)
    | None => ThrowTypeError
    end.
Proof.
  intros Hcb. revert sum. induction l as [|x l IH]; intros sum; [done|].
  cbn [reduce mapM]. rewrite Hcb. destruct (price x) as [v|]; [|done].
  cbn. rewrite IH. by destruct (mapM price l).
Qed.

Lemma map_array_answers {A B : Type} (callback : A -> completion B)
    (answer : A -> option B) (l : list A) :
  (forall x,
     callback x
     = match answer x with
       | Some y => Normal y
       | None => ThrowTypeError
       end) ->
  map_array callback l
  = match mapM answer l with
    | Some answers => Normal answers
    | None => ThrowTypeError
    end.
Proof.
  intros Hcb. induction l as [|x l IH]; [done|].
  cbn [map_array mapM]. rewrite Hcb, IH.
  destruct (answer x) as [y|]; [|done]. cbn. by destruct (mapM answer l).
Qed.

Lemma map_array_map_fields {A B C : Type} (callback : B -> completion C)
    (f : A -> B) (l : list A) :
  map_array callback (map f l) = map_array (fun x => callback (f x)) l.
Proof. induction l as [|x l IH]; [done|]. cbn [map map_array]. by rewrite IH. Qed.

Lemma handleCalculate_prices (database : Database) (s : string) :
  handleCalculate database s
  = match mapM (entry_price (lookup_js database))
            (map (split ",") (split ";" s)) with
    | Some prices => Normal (preciseRound (fold_left Num.add prices (Fin 0)))
    | None => ThrowTypeError
    end.
Proof.
  unfold handleCalculate.
  rewrite (reduce_prices _ (entry_price (lookup_js database))).
  - by destruct (mapM _ _).
  - intros sum fields. unfold entry_price, lookup_js.
    by destruct (property _ _).
Qed.

Lemma calculate_prices (database : DatabaseManager.t) (s : string) :
  SummaryAPI.calculate database s
  = match mapM (entry_price (lookup_ts database))
            (map (split ",") (split ";" s)) with
    | Some prices => Normal (preciseRound (fold_left Num.add prices (Fin 0)))
    | None => ThrowTypeError
    end.
Proof.
  unfold SummaryAPI.calculate.
  rewrite (reduce_prices _ (entry_price (lookup_ts database))).
  - by destruct (mapM _ _).
  - intros sum fields. unfold entry_price, lookup_ts.
    by destruct (DatabaseManager.getItem _ _).
Qed.

Lemma Exists_iff {A : Type} (P Q : A -> Prop) (l : list A) :
  (forall x, P x <-> Q x) -> Exists P l <-> Exists Q l.
Proof. intros HPQ. rewrite !Exists_exists. by setoid_rewrite HPQ. Qed.

Lemma entry_price_None (lookup : option string -> option Item)
    (fields : list string) :
  entry_price lookup fields = None <-> lookup (fields !! 0%nat) = None.
Proof. unfold entry_price. by destruct (lookup _). Qed.

Lemma handleQuery_answers (database : Database) (s : string) :
  handleQuery database s
  = match mapM (query_answer_js database) (split "," s) with
    | Some answers => Normal answers
    | None => ThrowTypeError
    end.
Proof.
  unfold handleQuery. apply map_array_answers.
  intros token. unfold query_answer_js, lookup_js.
  by destruct (property _ _).
Qed.

Lemma query_answers (database : DatabaseManager.t) (s : string) :
  SummaryAPI.query database s
  = match mapM (query_answer_ts database) (split "," s) with
    | Some answers => Normal answers
    | None => ThrowTypeError
    end.
Proof.
  unfold SummaryAPI.query. rewrite !map_array_map_fields.
  apply map_array_answers.
  intros token. unfold query_answer_ts, lookup_ts.
  by destruct (DatabaseManager.getItem _ _).
Qed.

Lemma fold_add_NaN_l (prices : list number) :
  fold_left Num.add prices NaN = NaN.
Proof. induction prices as [|v prices IH]; [done|]. cbn. by destruct v. Qed.

Lemma fold_add_NaN (prices : list number) (sum : number) :
  NaN ∈ prices -> fold_left Num.add prices sum = NaN.
Proof.
  revert sum. induction prices as [|v prices IH]; intros sum Hin.
  - by apply elem_of_nil in Hin.
  - cbn. apply elem_of_cons in Hin as [<-|Hin]; [|by apply IH].
    replace (sum + NaN)%num with NaN by (by destruct sum).
    apply fold_add_NaN_l.
Qed.

Lemma entry_price_NaN (lookup : option string -> option Item)
    (fields : list string) (v : number) :
  Number (fields !! 1%nat) = NaN ->
  entry_price lookup fields = Some v -> v = NaN.
Proof.
  unfold entry_price. intros Hq. destruct (lookup _) as [item|]; [|done].
  cbn. intros [= <-]. rewrite Hq.
  unfold normalizeWeight, normalizePrice.
  by destruct (is_g _), (is_g _).
Qed.

Lemma entry_price_take (lookup : option string -> option Item)
    (fields : list string) :
  entry_price lookup (take 3 fields) = entry_price lookup fields.
Proof. unfold entry_price. by rewrite !lookup_take by lia. Qed.

(** ** Ids in and out of canonical form *)

Lemma createDatabaseOf_noncanonical (seed : list Item) (token : string)
    (i : Z) :
  parseInt (Some token) = Fin (inject_Z i) ->
  token <> ToString i ->
  Database.items (createDatabaseOf seed) !! token = None.
Proof.
  intros Hp Hne. destruct (_ !! token) as [item|] eqn:E; [|done].
  apply createDatabaseOf_keyed in E. subst token.
  rewrite parseInt_ToString in Hp. injection Hp as Hp. by rewrite Hp in Hne.
Qed.


Lemma calculate_canonical (seed : list Item) (s : string) :
  Forall (fun entry =>
            exists i : Z, split "," entry !! 0%nat = Some (ToString i))
    (split ";" s) ->
  SummaryAPI.calculate (DatabaseManager.bulkAdd DatabaseManager.new seed) s
  = handleCalculate (createDatabaseOf seed) s.
Proof.
  intros Hcan. rewrite calculate_prices, handleCalculate_prices.
  erewrite Forall_mapM_ext; [done|].
  apply Forall_fmap. eapply Forall_impl; [exact Hcan|].
  intros entry [i Hid]. cbn. unfold entry_price, lookup_ts, lookup_js.
  rewrite Hid, getItem_ToString. unfold property. cbn [ToString_opt].
  by rewrite createDatabaseOf_lookup.
Qed.

Lemma query_canonical (seed : list Item) (s : string) :
  Forall canonical_id (split "," s) ->
  SummaryAPI.query (DatabaseManager.bulkAdd DatabaseManager.new seed) s
  ≡ handleQuery (createDatabaseOf seed) s.
Proof.
  intros Hcan. rewrite query_answers, handleQuery_answers.
  induction Hcan as [|token tokens [i ->] _ IH]; [by apply nil_equiv|].
  cbn [mapM].
  set (ts_tail := mapM (query_answer_ts _) tokens) in *.
  set (js_tail := mapM (query_answer_js _) tokens) in *.
  unfold query_answer_ts, query_answer_js, lookup_ts, lookup_js, property.
  cbn [ToString_opt].
  rewrite getItem_ToString, createDatabaseOf_lookup.
  destruct (_ !! i) as [item|] eqn:Hitem; [|done]. cbn.
  rewrite bulkAdd_lookup in Hitem.
  destruct (last_with_id i seed) as [found|] eqn:Hlast; [|done].
  injection Hitem as ->. apply last_with_id_Some in Hlast as [_ Hid].
  destruct ts_tail as [ts_answers|], js_tail as [js_answers|]; try done.
  change (price_info item :: ts_answers
          ≡ {| itemId := Number (Some (ToString i));
               kgPrice := normalizePrice (Fin (Item.unitPrice item))
                            (Some (Item.unit item)) |} :: js_answers).
  constructor; [|exact IH].
  split; [|done].
  change (Fin (inject_Z (Item.id item)) ≡ Number (Some (ToString i))).
  rewrite Hid. symmetry. apply Number_ToString.
Qed.





(** X4: [NaN] and the infinities pass through [preciseRound] unchanged. *)
Theorem preciseRound_non_finite (x : number) :
  (forall q, x <> Fin q) -> preciseRound x = x.
Proof. intros Hx. destruct x; [by destruct (Hx q)|done..]. Qed.

Lemma preciseRound_non_finite_witness :
  preciseRound NaN = NaN /\ preciseRound PInf = PInf.
Proof. split; by apply preciseRound_non_finite. Defined.

(** X5: [getItem] finds an item just added under its id, and [addItem]
    leaves every other id as it was. *)
Theorem getItem_addItem (database : DatabaseManager.t) (item : Item) :
  DatabaseManager.getItem (DatabaseManager.addItem database item)
    (Fin (inject_Z (Item.id item))) = Some item /\
  forall i : Z,
    i <> Item.id item ->
    DatabaseManager.getItem (DatabaseManager.addItem database item)
      (Fin (inject_Z i))
    = DatabaseManager.getItem database (Fin (inject_Z i)).
Proof.
  split.
  - rewrite getItem_integer. apply lookup_insert_eq.
  - intros i Hi. rewrite !getItem_integer. by apply lookup_insert_ne.
Qed.

Lemma getItem_addItem_witness :
  DatabaseManager.getItem
    (DatabaseManager.addItem sample_database
       {| Item.id := 20; Item.name := "item20"; Item.unitPrice := 1.5;
          Item.unit := "kg" |})
    (Fin (inject_Z 3))
  = DatabaseManager.getItem sample_database (Fin (inject_Z 3)).
Proof.
  destruct (getItem_addItem sample_database
              {| Item.id := 20; Item.name := "item20"; Item.unitPrice := 1.5;
                 Item.unit := "kg" |}) as [_ H].
  by apply (H 3%Z).
Defined.

(** X6: after [bulkAdd], [getItem] returns the last item of the list
    that carries the id, and what the database held before when the list
    has none: a later duplicate replaces an earlier one. *)
Theorem getItem_bulkAdd (database : DatabaseManager.t) (l : list Item)
    (i : Z) :
  DatabaseManager.getItem (DatabaseManager.bulkAdd database l)
    (Fin (inject_Z i))
  = match last_with_id i l with
    | Some item => Some item
    | None => DatabaseManager.getItem database (Fin (inject_Z i))
    end.
Proof. rewrite !getItem_integer. apply bulkAdd_lookup. Qed.

(** X7: in a database filled by [bulkAdd] alone, [getItem] only ever
    returns an item of the list, and only for a number equal to that
    item's id; for [NaN], an infinity or a number that is no integer it
    returns [undefined]. *)
Theorem getItem_sound (l : list Item) (n : number) (item : Item) :
  DatabaseManager.getItem
    (DatabaseManager.bulkAdd DatabaseManager.new l) n = Some item ->
  item ∈ l /\ n ≡ Fin (inject_Z (Item.id item)).
Proof.
  intros H. apply getItem_Some in H as (i & Hn & Hi).
  rewrite bulkAdd_lookup in Hi.
  destruct (last_with_id i l) as [found|] eqn:Hlast; [|done].
  injection Hi as ->. by apply last_with_id_Some in Hlast as [? ->].
Qed.

Lemma getItem_sound_witness :
  {| Item.id := 3; Item.name := "item3"; Item.unitPrice := 2.35;
     Item.unit := "g" |} ∈ sample_items /\
  Fin (6 # 2) ≡ Fin (inject_Z 3).
Proof.
  by apply (getItem_sound sample_items (Fin (6 # 2))
              {| Item.id := 3; Item.name := "item3"; Item.unitPrice := 2.35;
                 Item.unit := "g" |}).
Defined.

(** X8: the object [createDatabase] builds holds, under the decimal
    text of an id, the last item of the list with that id, and holds
    nothing under any other key. *)
Theorem createDatabase_lookup (l : list Item) (key : string) (item : Item) :
  Database.items (createDatabaseOf l) !! key = Some item <->
  exists i : Z, key = ToString i /\ last_with_id i l = Some item.
Proof.
  split.
  - intros H. assert (Hkey := createDatabaseOf_keyed l key item H).
    exists (Item.id item). split; [done|].
    rewrite Hkey, createDatabaseOf_lookup, bulkAdd_lookup in H.
    by destruct (last_with_id _ l).
  - intros (i & -> & Hlast).
    by rewrite createDatabaseOf_lookup, bulkAdd_lookup, Hlast.
Qed.

(** X9: a calculation throws exactly when the id of some entry is not
    found, in [database.items] for the refactored file (ids that name a
    member of [Object.prototype] set aside) and by
    [getItem(parseInt(id))] for the class-based listing; nothing else
    in a payload can make it throw. *)
Theorem calculate_throws_iff (js : Database) (ts : DatabaseManager.t)
    (s : string) :
  (Forall (fun entry => inherited (split "," entry !! 0%nat) = false)
     (split ";" s) ->
   (handleCalculate js s = ThrowTypeError <->
    Exists (fun entry => lookup_js js (split "," entry !! 0%nat) = None)
      (split ";" s))) /\
  (SummaryAPI.calculate ts s = ThrowTypeError <->
   Exists (fun entry => lookup_ts ts (split "," entry !! 0%nat) = None)
     (split ";" s)).
Proof.
  rewrite handleCalculate_prices, calculate_prices. split; [intros _|].
  - transitivity (mapM (entry_price (lookup_js js))
                    (map (split ",") (split ";" s)) = None);
      [by destruct (mapM _ _)|].
    rewrite mapM_None, Exists_fmap.
    apply Exists_iff. intros entry. apply entry_price_None.
  - transitivity (mapM (entry_price (lookup_ts ts))
                    (map (split ",") (split ";" s)) = None);
      [by destruct (mapM _ _)|].
    rewrite mapM_None, Exists_fmap.
    apply Exists_iff. intros entry. apply entry_price_None.
Qed.

Lemma calculate_throws_iff_witness :
  handleCalculate database "1,1,kg;99,1,kg" = ThrowTypeError /\
  SummaryAPI.calculate sample_database "1,1,kg;99,1,kg" = ThrowTypeError.
Proof.
  destruct (calculate_throws_iff database sample_database "1,1,kg;99,1,kg")
    as [Hjs Hts].
  split; [apply Hjs; [by repeat constructor|]|apply Hts];
    apply Exists_cons_tl, Exists_cons_hd; by vm_compute.
Defined.

(** X10: a query throws exactly when some id token is not found (in
    the refactored file, tokens that name a member of [Object.prototype]
    set aside), and otherwise answers with one element per token: as
    many as the payload has commas, plus one. *)
Theorem query_throws_iff (js : Database) (ts : DatabaseManager.t)
    (s : string) :
  (Forall (fun token => inherited (Some token) = false) (split "," s) ->
   (handleQuery js s = ThrowTypeError <->
    Exists (fun token => lookup_js js (Some token) = None) (split "," s))) /\
  (forall answers,
     handleQuery js s = Normal answers ->
     length answers = length (split "," s)) /\
  (SummaryAPI.query ts s = ThrowTypeError <->
   Exists (fun token => lookup_ts ts (Some token) = None) (split "," s)) /\
  (forall answers,
     SummaryAPI.query ts s = Normal answers ->
     length answers = length (split "," s)).
Proof.
  rewrite handleQuery_answers, query_answers.
  split; [intros _|split; [|split]].
  - transitivity (mapM (query_answer_js js) (split "," s) = None);
      [by destruct (mapM _ _)|].
    rewrite mapM_None. apply Exists_iff. intros token.
    unfold query_answer_js. by destruct (lookup_js _ _).
  - intros answers.
    destruct (mapM _ _) as [l|] eqn:E; [|done].
    intros [= <-]. symmetry. by eapply length_mapM.
  - transitivity (mapM (query_answer_ts ts) (split "," s) = None);
      [by destruct (mapM _ _)|].
    rewrite mapM_None. apply Exists_iff. intros token.
    unfold query_answer_ts. by destruct (lookup_ts _ _).
  - intros answers.
    destruct (mapM _ _) as [l|] eqn:E; [|done].
    intros [= <-]. symmetry. by eapply length_mapM.
Qed.

Lemma query_throws_iff_witness :
  handleQuery database "1,99" = ThrowTypeError /\
  SummaryAPI.query sample_database "1,99" = ThrowTypeError.
Proof.
  destruct (query_throws_iff database sample_database "1,99")
    as (Hjs & _ & Hts & _).
  split; [apply Hjs; [by repeat constructor|]|apply Hts];
    apply Exists_cons_tl, Exists_cons_hd; by vm_compute.
Defined.

(** X11: an empty entry or id token (the empty payload, a doubled or a
    trailing separator) makes both listings throw: no item is stored
    under the empty key, and [parseInt] of the empty text is [NaN]. *)
Theorem empty_entry_throws (l : list Item) (ts : DatabaseManager.t)
    (s : string) :
  ("" ∈ split ";" s ->
   handleCalculate (createDatabaseOf l) s = ThrowTypeError /\
   SummaryAPI.calculate ts s = ThrowTypeError) /\
  ("" ∈ split "," s ->
   handleQuery (createDatabaseOf l) s = ThrowTypeError /\
   SummaryAPI.query ts s = ThrowTypeError).
Proof.
  assert (Hjs : Database.items (createDatabaseOf l) !! "" = None).
  { destruct (_ !! "") as [item|] eqn:E; [|done].
    apply createDatabaseOf_keyed in E. by apply eq_sym, ToString_nonempty in E. }
  split; intros Hin.
  - rewrite handleCalculate_prices, calculate_prices.
    rewrite !(proj2 (mapM_None _ _)); [done|..];
      apply Exists_fmap, Exists_exists; exists ""; (split; [done|]);
      apply entry_price_None; done.
  - rewrite handleQuery_answers, query_answers.
    rewrite !(proj2 (mapM_None _ _)); [done|..];
      apply Exists_exists; exists ""; (split; [done|]);
      unfold query_answer_js, query_answer_ts, lookup_js, property;
      cbn [ToString_opt]; by rewrite ?Hjs.
Qed.

Lemma empty_entry_throws_witness :
  (handleCalculate database "" = ThrowTypeError /\
   SummaryAPI.calculate sample_database "" = ThrowTypeError) /\
  (handleQuery database "1,2," = ThrowTypeError /\
   SummaryAPI.query sample_database "1,2," = ThrowTypeError).
Proof.
  destruct (empty_entry_throws sample_items sample_database "") as [H _].
  destruct (empty_entry_throws sample_items sample_database "1,2,") as [_ H'].
  split; [apply H|apply H']; by vm_compute; left + (right; right; left).
Defined.

(** X12: a quantity that is missing or is no number does not make a
    calculation fail: unless an id is not found, the total is [NaN]. *)
Theorem calculate_not_a_number (js : Database) (ts : DatabaseManager.t)
    (s : string) :
  Exists (fun entry => Number (split "," entry !! 1%nat) = NaN)
    (split ";" s) ->
  (handleCalculate js s = ThrowTypeError \/
   handleCalculate js s = Normal NaN) /\
  (SummaryAPI.calculate ts s = ThrowTypeError \/
   SummaryAPI.calculate ts s = Normal NaN).
Proof.
  intros Hnan. rewrite handleCalculate_prices, calculate_prices.
  apply Exists_exists in Hnan as (entry & Hin & Hq).
  split.
  - destruct (mapM _ _) as [prices|] eqn:E; [right|by left].
    apply mapM_Some_1 in E. rewrite fold_add_NaN; [done|].
    apply (list_elem_of_fmap_2 (split ",")) in Hin.
    apply list_elem_of_lookup in Hin as [k Hk].
    destruct (Forall2_lookup_l _ _ _ _ _ E Hk) as (v & Hv & Hprice).
    apply (entry_price_NaN _ _ _ Hq) in Hprice as ->.
    by eapply list_elem_of_lookup_2.
  - destruct (mapM _ _) as [prices|] eqn:E; [right|by left].
    apply mapM_Some_1 in E. rewrite fold_add_NaN; [done|].
    apply (list_elem_of_fmap_2 (split ",")) in Hin.
    apply list_elem_of_lookup in Hin as [k Hk].
    destruct (Forall2_lookup_l _ _ _ _ _ E Hk) as (v & Hv & Hprice).
    apply (entry_price_NaN _ _ _ Hq) in Hprice as ->.
    by eapply list_elem_of_lookup_2.
Qed.

Lemma calculate_not_a_number_witness :
  Exists (fun entry => Number (split "," entry !! 1%nat) = NaN)
    (split ";" "1,1,kg;2") /\
  (handleCalculate database "1,1,kg;2" = ThrowTypeError \/
   handleCalculate database "1,1,kg;2" = Normal NaN) /\
  (SummaryAPI.calculate sample_database "1,1,kg;2" = ThrowTypeError \/
   SummaryAPI.calculate sample_database "1,1,kg;2" = Normal NaN).
Proof.
  assert (H : Exists (fun entry => Number (split "," entry !! 1%nat) = NaN)
                (split ";" "1,1,kg;2"))
    by (apply Exists_cons_tl, Exists_cons_hd; reflexivity).
  split; [exact H|].
  exact (calculate_not_a_number database sample_database "1,1,kg;2" H).
Defined.

(** X13: only the first three fields of an entry count: text after a
    third comma is ignored. *)
Theorem calculate_first_three (js : Database) (ts : DatabaseManager.t)
    (s t : string) :
  map (fun entry => take 3 (split "," entry)) (split ";" s)
  = map (fun entry => take 3 (split "," entry)) (split ";" t) ->
  handleCalculate js s = handleCalculate js t /\
  SummaryAPI.calculate ts s = SummaryAPI.calculate ts t.
Proof.
  intros Hst. rewrite !handleCalculate_prices, !calculate_prices.
  assert (Hm : forall lookup u,
    mapM (entry_price lookup) (map (split ",") (split ";" u))
    = mapM (entry_price lookup)
        (map (fun entry => take 3 (split "," entry)) (split ";" u))).
  { intros lookup u. induction (split ";" u) as [|e es IH]; [done|].
    cbn [map mapM]. by rewrite IH, entry_price_take. }
  by rewrite !(Hm _ s), !(Hm _ t), Hst.
Qed.

Lemma calculate_first_three_witness :
  handleCalculate database "1,2,kg,extra;3,1,g,,"
  = handleCalculate database "1,2,kg;3,1,g" /\
  SummaryAPI.calculate sample_database "1,2,kg,extra;3,1,g,,"
  = SummaryAPI.calculate sample_database "1,2,kg;3,1,g".
Proof. by apply calculate_first_three. Defined.



(** X15: the listings part ways on an id token that [parseInt] reads as
    an id of the catalog without being its decimal text (a leading zero,
    a plus sign, leading blanks, text after the digits): the class-based
    listing answers with the item, the refactored file finds no such
    property key and throws. *)
Theorem noncanonical_id_divergence (seed : list Item) (token : string)
    (i : Z) (item : Item) :
  all_chars (differs ",") token = true ->
  parseInt (Some token) = Fin (inject_Z i) ->
  token <> ToString i ->
  DatabaseManager.items (DatabaseManager.bulkAdd DatabaseManager.new seed)
    !! i = Some item ->
  SummaryAPI.query (DatabaseManager.bulkAdd DatabaseManager.new seed) token
  = Normal [price_info item] /\
  handleQuery (createDatabaseOf seed) token = ThrowTypeError.
Proof.
  intros Hchars Hp Hne Hitem.
  rewrite query_answers, handleQuery_answers, (split_differs _ _ Hchars).
  cbn [mapM]. unfold query_answer_ts, query_answer_js, lookup_ts, lookup_js.
  rewrite Hp, getItem_integer, Hitem.
  unfold property. cbn [ToString_opt].
  by rewrite (createDatabaseOf_noncanonical seed token i Hp Hne).
Qed.

Lemma noncanonical_id_divergence_witness :
  SummaryAPI.query sample_database " +7px"
  = Normal [{| itemId := Fin 7; kgPrice := Fin 2.34 * Fin 1000 |}%num] /\
  handleQuery database " +7px" = ThrowTypeError.
Proof.
  apply (noncanonical_id_divergence sample_items " +7px" 7
           {| Item.id := 7; Item.name := "item7"; Item.unitPrice := 2.34;
              Item.unit := "g" |}); by vm_compute.
Defined.

(** X16: seeded with the same items, the two listings agree on every
    request whose id tokens are in canonical decimal form, whatever the
    other fields hold and whether or not the ids are in the catalog:
    they return equal values or both throw. *)
Theorem variants_agree_canonical (seed : list Item) (largeData : LargeData) :
  canonical_request largeData ->
  SummaryAPI.process (DatabaseManager.bulkAdd DatabaseManager.new seed)
    largeData
  ≡ summaryApi (createDatabaseOf seed) largeData.
Proof.
  intros [Hcalc Hquery]. unfold summaryApi, SummaryAPI.process.
  destruct (String.eqb_spec (action largeData) "calculate") as [Ha|_].
  - rewrite (calculate_canonical seed _ (Hcalc Ha)).
    apply number_result_proper. by destruct (handleCalculate _ _).
  - destruct (String.eqb_spec (action largeData) "query") as [Ha|_]; [|done].
    apply array_result_proper. by apply query_canonical, Hquery.
Qed.

Lemma variants_agree_canonical_witness :
  SummaryAPI.process sample_database
    {| action := "calculate"; datas := "1,x,kg;99,,lb,5" |}
  ≡ summaryApi database
      {| action := "calculate"; datas := "1,x,kg;99,,lb,5" |}.
Proof.
  apply (variants_agree_canonical sample_items). split; [|done].
  intros _. repeat constructor; [by exists 1%Z|by exists 99%Z].
Defined.

